(** * BigRational: rational numbers over [bigint]

    A shallow embedding of [src/index.ts] (class [BigRational]) and the
    properties its specification states about it.

    - a JavaScript [bigint] is an unbounded integer: [Z];
    - [*], [+], unary [-] on [bigint] are [Z.mul], [Z.add], [Z.opp];
      [/] on [bigint] truncates toward zero: [Z.quot];
    - a method that may [throw] returns a [completion]: either the value
      it returns or the exception it throws;
    - an instance is the record of its two private fields. *)

From Stdlib Require Import ZArith QArith Bool String Ascii Lia Znumtheory.
From Stdlib Require Import DecimalString DecimalPos DecimalZ.
From Stdlib Require Import Qabs Lqa.

Local Open Scope Z_scope.

(** ** Exceptions and completions *)

(** The exceptions the modelled code can throw: [new Error(message)] and the
    [SyntaxError] of the [BigInt(string)] conversion. *)
Inductive exn : Type :=
| Error (message : string)
| SyntaxError (message : string).

(** The one error the constructor throws, [new Error("Denominator can't be zero")]. *)
Definition InvalidDenominator : exn := Error "Denominator can't be zero".

Inductive completion (A : Type) : Type :=
| Return (a : A)
| Throw (e : exn).

Arguments Return {A} a.
Arguments Throw {A} e.

Definition bind {A B : Type} (c : completion A) (k : A -> completion B) : completion B :=
  match c with
  | Return a => k a
  | Throw e => Throw e
  end.

Declare Scope completion_scope.
Delimit Scope completion_scope with completion.
Notation "'let*' x ':=' c 'in' k" := (bind c (fun x => k))
  (at level 10, x name, c at level 100, k at level 200) : completion_scope.
Local Open Scope completion_scope.

Definition returns {A : Type} (c : completion A) : Prop :=
  exists a, c = Return a.

Definition throws {A : Type} (c : completion A) (e : exn) : Prop :=
  c = Throw e.

(** ** The integer collaborator *)

Module bigInt.

(** Modelled from the spec: the [gcd] function imported from the external
    package [big-integer], whose code is not part of the repository.  The
    specification names it the binary greatest-common-divisor function of
    the arbitrary-precision integer collaborator, exact and non-overflowing,
    whose result divides both arguments evenly and is nonzero as soon as
    the denominator is.  The greatest common divisor of two integers that
    are not both zero is the largest integer dividing both, a positive
    number. *)
Definition gcd (a b : Z) : Z := Z.gcd a b.

(** Modelled from the spec: [toString()] of the integer [gcd] returns, its
    decimal numeral (["0"] for zero, a leading ["-"] for a negative
    number). *)
Definition toString (z : Z) : string := NilZero.string_of_int (Z.to_int z).

End bigInt.

(** [BigInt(s)] for a string [s]: the integer a decimal numeral denotes, a
    [SyntaxError] when [s] is not one.  Only decimal numerals are modelled
    (the code applies [BigInt] to the output of [toString()] only). *)
Definition BigInt (s : string) : completion Z :=
  match NilZero.int_of_string s with
  | Some d => Return (Z.of_int d)
  | None => Throw (SyntaxError s)
  end.

(** A [bigint] interpolated in a template literal: its decimal numeral
    (["0"] for zero, a leading ["-"] for a negative number). *)
Definition bigint_toString (z : Z) : string := NilZero.string_of_int (Z.to_int z).

(** ** The class *)

Module BigRational.

Record BigRational : Type := mk { numerator : Z; denominator : Z }.

(** [constructor(numerator, denominator)] *)
Definition new (numerator denominator : Z) : completion BigRational :=
  if denominator =? 0
  then Throw (Error "Denominator can't be zero")
  else Return (mk numerator denominator).

Definition getNumerator (this : BigRational) : Z := numerator this.

Definition getDenominator (this : BigRational) : Z := denominator this.

Definition toPair (this : BigRational) : Z * Z := (numerator this, denominator this).

Definition abs (this : BigRational) : completion BigRational :=
  let abs := fun n : Z => if n >=? 0 then n else - n in
  new (abs (numerator this)) (abs (denominator this)).

Definition negate (this : BigRational) : completion BigRational :=
  new (- numerator this) (denominator this).

Definition add (this a : BigRational) : completion BigRational :=
  let '(numerator, denominator) := toPair a in
  let resultingNumerator :=
    numerator * BigRational.denominator this + BigRational.numerator this * denominator in
  let resultingDenominator := BigRational.denominator this * denominator in
  new resultingNumerator resultingDenominator.

Definition subtract (this a : BigRational) : completion BigRational :=
  let* na := negate a in add this na.

Definition inverse (this : BigRational) : completion BigRational :=
  new (denominator this) (numerator this).

Definition mul (this a : BigRational) : completion BigRational :=
  new (numerator a * numerator this) (denominator a * denominator this).

Definition div (this a : BigRational) : completion BigRational :=
  let* ia := inverse a in mul this ia.

Definition lte (this a : BigRational) : bool :=
  let '(numerator, denominator) := toPair a in
  let crossMultiplicationNegative :=
    ((denominator >? 0) && (BigRational.denominator this <? 0))
    || ((denominator <? 0) && (BigRational.denominator this >? 0)) in
  if crossMultiplicationNegative
  then BigRational.numerator this * denominator >=? numerator * BigRational.denominator this
  else BigRational.numerator this * denominator <=? numerator * BigRational.denominator this.

Definition lt (this a : BigRational) : bool := lte this a && negb (lte a this).

Definition eq (this a : BigRational) : bool := lte this a && lte a this.

Definition gte (this a : BigRational) : bool := lte a this.

Definition gt (this a : BigRational) : bool := lt a this.

(** [private static gcd(a, b)]: [BigInt(gcd(a, b).toString())] *)
Definition gcd (a b : Z) : completion Z :=
  BigInt (bigInt.toString (bigInt.gcd a b)).

Definition reduce (this : BigRational) : completion BigRational :=
  let '(numerator, denominator) := toPair this in
  let* divisor := gcd numerator denominator in
  new (Z.quot numerator divisor) (Z.quot denominator divisor).

(** [toString()]: the template literal [`${this.numerator} / ${this.denominator}`] *)
Definition toString (this : BigRational) : string :=
  (bigint_toString (numerator this) ++ " / " ++ bigint_toString (denominator this))%string.

Definition isPositive (this : BigRational) : bool :=
  ((numerator this >? 0) && (denominator this >? 0))
  || ((numerator this <? 0) && (denominator this <? 0)).

Definition isNegative (this : BigRational) : bool :=
  negb (numerator this =? 0) && negb (isPositive this).

(** An instance exists only as the result of a constructor call that
    returned, so its denominator is not zero. *)
Definition valid (r : BigRational) : Prop := denominator r <> 0.

(** The rational number an instance represents, [numerator / denominator]. *)
Definition toQ (r : BigRational) : Q :=
  (inject_Z (numerator r) / inject_Z (denominator r))%Q.

End BigRational.

Import BigRational (BigRational, mk, numerator, denominator, valid, toQ).

(** A call returns, and what it returns is a valid instance. *)
Definition returns_valid (c : completion BigRational) : Prop :=
  exists r, c = Return r /\ valid r.

(** A string without the space character. *)
Fixpoint space_free (s : string) : bool :=
  match s with
  | EmptyString => true
  | String c s' => negb (Ascii.eqb c " ") && space_free s'
  end.

(** ** Running the code on the examples of the test suite *)

Example new_5_2 : BigRational.new 5 2 = Return (mk 5 2).
Proof. reflexivity. Qed.

Example reduce_10_20 : BigRational.reduce (mk 10 20) = Return (mk 1 2).
Proof. vm_compute. reflexivity. Qed.

Example div_by_zero_numerator :
  BigRational.div (mk 2 3) (mk 0 5) = Throw (Error "Denominator can't be zero").
Proof. reflexivity. Qed.

Example toString_5_2 : BigRational.toString (mk 5 2) = "5 / 2"%string.
Proof. reflexivity. Qed.

Example lte_5_2_3_4 :
  BigRational.lte (mk 5 2) (mk 3 4) = false
  /\ BigRational.lte (mk 3 4) (mk 5 2) = true
  /\ BigRational.lte (mk 5 2) (mk 5 2) = true.
Proof. repeat split. Qed.

(** ** Basic facts about completions and the constructor *)

Lemma Return_not_Throw {A : Type} (a : A) (e : exn) : Return a <> Throw e.
Proof. discriminate. Qed.

Lemma returns_not_throws {A : Type} (c : completion A) (e : exn) :
  returns c -> ~ throws c e.
Proof. intros [a ->]. apply Return_not_Throw. Qed.

Lemma new_nonzero (n d : Z) : d <> 0 -> BigRational.new n d = Return (mk n d).
Proof.
  intros Hd. unfold BigRational.new.
  destruct (Z.eqb_spec d 0) as [E | _]; [contradiction | reflexivity].
Qed.

Lemma new_zero (n : Z) : BigRational.new n 0 = Throw InvalidDenominator.
Proof. reflexivity. Qed.

Lemma new_Return_inv (n d : Z) (r : BigRational) :
  BigRational.new n d = Return r -> r = mk n d /\ d <> 0.
Proof.
  unfold BigRational.new. destruct (Z.eqb_spec d 0) as [E | NE].
  - discriminate.
  - intros [= <-]. split; [reflexivity | exact NE].
Qed.

Lemma new_Throw_inv (n d : Z) (e : exn) :
  BigRational.new n d = Throw e -> e = InvalidDenominator /\ d = 0.
Proof.
  unfold BigRational.new. destruct (Z.eqb_spec d 0) as [E | NE].
  - intros [= <-]. split; [reflexivity | exact E].
  - discriminate.
Qed.

(** Whatever the constructor returns is a valid instance. *)
Lemma new_valid (n d : Z) (r : BigRational) :
  BigRational.new n d = Return r -> valid r.
Proof.
  intros H. apply new_Return_inv in H as [-> Hd]. exact Hd.
Qed.

(** The valid instances are exactly the values the constructor returns. *)
Lemma valid_iff_constructed (r : BigRational) :
  valid r <-> exists n d, BigRational.new n d = Return r.
Proof.
  split.
  - intros Hr. exists (numerator r), (denominator r).
    rewrite (new_nonzero _ _ Hr). destruct r; reflexivity.
  - intros [n [d H]]. exact (new_valid n d r H).
Qed.

(** ** The integer collaborator: printing then parsing is the identity *)

Lemma to_int_not_nil (z : Z) :
  Z.to_int z <> Decimal.Pos Decimal.Nil /\ Z.to_int z <> Decimal.Neg Decimal.Nil.
Proof.
  destruct z as [| p | p]; simpl; split; try discriminate;
    intros [= E]; exact (Unsigned.to_uint_nonnil p E).
Qed.

Lemma BigInt_toString (z : Z) : BigInt (bigInt.toString z) = Return z.
Proof.
  unfold BigInt, bigInt.toString.
  destruct (to_int_not_nil z) as [Hp Hn].
  rewrite (NilZero.isi _ Hp Hn).
  f_equal. apply DecimalZ.of_to.
Qed.

Lemma gcd_Return (a b : Z) : BigRational.gcd a b = Return (Z.gcd a b).
Proof. unfold BigRational.gcd, bigInt.gcd. apply BigInt_toString. Qed.

(** ** Ordering *)

(** The comparison [lte] performs, with the test on the denominators'
    signs written as an exclusive or. *)
Lemma lte_unfold (a b : BigRational) :
  valid a -> valid b ->
  BigRational.lte a b =
    if xorb (denominator a <? 0) (denominator b <? 0)
    then numerator a * denominator b >=? numerator b * denominator a
    else numerator a * denominator b <=? numerator b * denominator a.
Proof.
  unfold valid, BigRational.lte, BigRational.toPair. intros Ha Hb.
  destruct (Z.ltb_spec (denominator a) 0), (Z.ltb_spec (denominator b) 0),
    (Z.gtb_spec (denominator a) 0), (Z.gtb_spec (denominator b) 0);
    simpl; try reflexivity; lia.
Qed.

(** Order of two quotients of integers, by cross-multiplication. *)
Lemma Qle_div_cross (n1 d1 n2 d2 : Z) :
  d1 <> 0 -> d2 <> 0 ->
  ((inject_Z n1 / inject_Z d1 <= inject_Z n2 / inject_Z d2)%Q
   <-> if xorb (d1 <? 0) (d2 <? 0) then n2 * d1 <= n1 * d2 else n1 * d2 <= n2 * d1).
Proof.
  intros H1 H2.
  destruct d1 as [| p1 | p1], d2 as [| p2 | p2]; try contradiction;
    unfold Qle, Qdiv, Qinv, Qmult, inject_Z; simpl;
    rewrite ?Z.mul_1_r, ?Pos2Z.inj_mul, <- ?Pos2Z.opp_pos; lia.
Qed.

Lemma lte_iff_Qle (a b : BigRational) :
  valid a -> valid b ->
  (BigRational.lte a b = true <-> (toQ a <= toQ b)%Q).
Proof.
  intros Ha Hb. rewrite (lte_unfold a b Ha Hb). unfold toQ.
  rewrite (Qle_div_cross _ _ _ _ Ha Hb).
  destruct (xorb _ _).
  - rewrite Z.geb_leb. apply Z.leb_le.
  - apply Z.leb_le.
Qed.

(** [lte] is total: of two valid instances, one is below the other. *)
Lemma lte_total (a b : BigRational) :
  valid a -> valid b ->
  BigRational.lte a b = true \/ BigRational.lte b a = true.
Proof.
  intros Ha Hb.
  rewrite (lte_iff_Qle a b Ha Hb), (lte_iff_Qle b a Hb Ha).
  destruct (Qlt_le_dec (toQ b) (toQ a)) as [L | L].
  - right. apply Qlt_le_weak. exact L.
  - left. exact L.
Qed.

(** Negating both fields of an instance does not change the number it
    represents. *)
Lemma toQ_opp_opp (n d : Z) :
  d <> 0 -> (toQ (mk (- n) (- d)) == toQ (mk n d))%Q.
Proof.
  intros Hd. unfold toQ; simpl.
  destruct d as [| p | p]; try contradiction;
    unfold Qeq, Qdiv, Qinv, Qmult, inject_Z; simpl; lia.
Qed.

Lemma bool_eq_iff (x y : bool) : (x = true <-> y = true) -> x = y.
Proof. destruct x, y; intros [H1 H2]; auto; symmetry; auto. Qed.

Lemma lte_opp_l (a b : BigRational) :
  valid a -> valid b ->
  BigRational.lte (mk (- numerator a) (- denominator a)) b = BigRational.lte a b.
Proof.
  intros Ha Hb. apply bool_eq_iff.
  assert (Ha' : valid (mk (- numerator a) (- denominator a)))
    by (unfold valid in *; simpl; lia).
  rewrite (lte_iff_Qle _ b Ha' Hb), (lte_iff_Qle a b Ha Hb).
  rewrite (toQ_opp_opp _ _ Ha). destruct a; reflexivity.
Qed.

Lemma lte_opp_r (a b : BigRational) :
  valid a -> valid b ->
  BigRational.lte a (mk (- numerator b) (- denominator b)) = BigRational.lte a b.
Proof.
  intros Ha Hb. apply bool_eq_iff.
  assert (Hb' : valid (mk (- numerator b) (- denominator b)))
    by (unfold valid in *; simpl; lia).
  rewrite (lte_iff_Qle a _ Ha Hb'), (lte_iff_Qle a b Ha Hb).
  rewrite (toQ_opp_opp _ _ Hb). destruct b; reflexivity.
Qed.

(** C1. For valid instances [a] and [b], [a.lte(b)] compares the cross
    products [a.numerator * b.denominator] and [b.numerator * a.denominator]
    with [>=] when exactly one of the two denominators is negative and with
    [<=] otherwise, and its result is the order of the represented rationals
    [a.numerator / a.denominator <= b.numerator / b.denominator]; nothing is
    assumed about the operands being reduced or sign-normalized. *)
Theorem lte_cross_multiplies_and_agrees_with_order (a b : BigRational) :
  valid a -> valid b ->
  BigRational.lte a b =
    (if xorb (denominator a <? 0) (denominator b <? 0)
     then numerator a * denominator b >=? numerator b * denominator a
     else numerator a * denominator b <=? numerator b * denominator a)
  /\ (BigRational.lte a b = true <-> (toQ a <= toQ b)%Q).
Proof.
  intros Ha Hb. split.
  - apply lte_unfold; assumption.
  - apply lte_iff_Qle; assumption.
Qed.

Lemma lte_cross_multiplies_and_agrees_with_order_witness :
  valid (mk 1 (-2)) /\ valid (mk 4 6)
  /\ BigRational.lte (mk 1 (-2)) (mk 4 6) = (1 * 6 >=? 4 * (-2))
  /\ (BigRational.lte (mk 1 (-2)) (mk 4 6) = true <-> (toQ (mk 1 (-2)) <= toQ (mk 4 6))%Q).
Proof.
  assert (Ha : valid (mk 1 (-2))) by discriminate.
  assert (Hb : valid (mk 4 6)) by discriminate.
  split; [exact Ha | split; [exact Hb |]].
  exact (lte_cross_multiplies_and_agrees_with_order (mk 1 (-2)) (mk 4 6) Ha Hb).
Defined.

(** C7. For valid instances [a] and [b], exactly one of [a.lt(b)],
    [a.eq(b)], [a.gt(b)] holds; the signs of the denominators do not affect
    the outcome: replacing either operand by the same fraction written with
    the opposite denominator sign leaves [lt], [eq] and [gt] unchanged; and
    (1, 2) and (-1, -2) compare [eq]. *)
Theorem lt_eq_gt_trichotomy (a b : BigRational) :
  valid a -> valid b ->
  ((BigRational.lt a b = true /\ BigRational.eq a b = false /\ BigRational.gt a b = false)
   \/ (BigRational.lt a b = false /\ BigRational.eq a b = true /\ BigRational.gt a b = false)
   \/ (BigRational.lt a b = false /\ BigRational.eq a b = false /\ BigRational.gt a b = true))
  /\ (let a' := mk (- numerator a) (- denominator a) in
      let b' := mk (- numerator b) (- denominator b) in
      (BigRational.lt a' b = BigRational.lt a b
       /\ BigRational.eq a' b = BigRational.eq a b
       /\ BigRational.gt a' b = BigRational.gt a b)
      /\ (BigRational.lt a b' = BigRational.lt a b
          /\ BigRational.eq a b' = BigRational.eq a b
          /\ BigRational.gt a b' = BigRational.gt a b))
  /\ BigRational.eq (mk 1 2) (mk (-1) (-2)) = true
  /\ BigRational.lt (mk 1 2) (mk (-1) (-2)) = false
  /\ BigRational.gt (mk 1 2) (mk (-1) (-2)) = false.
Proof.
  intros Ha Hb. split; [| split; [| repeat split]].
  - unfold BigRational.gt, BigRational.lt, BigRational.eq.
    destruct (lte_total a b Ha Hb) as [L | L]; rewrite L.
    + destruct (BigRational.lte b a); simpl; auto 10.
    + destruct (BigRational.lte a b); simpl; auto 10.
  - assert (Ha' : valid (mk (- numerator a) (- denominator a)))
      by (unfold valid in *; simpl; lia).
    assert (Hb' : valid (mk (- numerator b) (- denominator b)))
      by (unfold valid in *; simpl; lia).
    cbv zeta. unfold BigRational.gt, BigRational.lt, BigRational.eq.
    pose proof (lte_opp_l a b Ha Hb) as L1. pose proof (lte_opp_r b a Hb Ha) as R1.
    pose proof (lte_opp_r a b Ha Hb) as R2. pose proof (lte_opp_l b a Hb Ha) as L2.
    rewrite L1, R1, R2, L2. repeat split.
Qed.

Lemma lt_eq_gt_trichotomy_witness :
  valid (mk 5 2) /\ valid (mk 3 (-4))
  /\ ((BigRational.lt (mk 5 2) (mk 3 (-4)) = true
       /\ BigRational.eq (mk 5 2) (mk 3 (-4)) = false
       /\ BigRational.gt (mk 5 2) (mk 3 (-4)) = false)
      \/ (BigRational.lt (mk 5 2) (mk 3 (-4)) = false
          /\ BigRational.eq (mk 5 2) (mk 3 (-4)) = true
          /\ BigRational.gt (mk 5 2) (mk 3 (-4)) = false)
      \/ (BigRational.lt (mk 5 2) (mk 3 (-4)) = false
          /\ BigRational.eq (mk 5 2) (mk 3 (-4)) = false
          /\ BigRational.gt (mk 5 2) (mk 3 (-4)) = true))
  /\ BigRational.gt (mk (-5) (-2)) (mk 3 (-4)) = BigRational.gt (mk 5 2) (mk 3 (-4))
  /\ BigRational.gt (mk 5 2) (mk (-3) 4) = BigRational.gt (mk 5 2) (mk 3 (-4)).
Proof.
  assert (Ha : valid (mk 5 2)) by discriminate.
  assert (Hb : valid (mk 3 (-4))) by discriminate.
  destruct (lt_eq_gt_trichotomy (mk 5 2) (mk 3 (-4)) Ha Hb)
    as [T [[[_ [_ G1]] [_ [_ G2]]] _]].
  exact (conj Ha (conj Hb (conj T (conj G1 G2)))).
Defined.

(** ** Construction and its failure *)

(** C2. [new BigRational(numerator, denominator)] throws the
    invalid-denominator error if and only if [denominator] is zero; for any
    numerator and any nonzero denominator it returns an instance whose
    [getNumerator()] and [getDenominator()] are exactly the arguments. *)
Theorem new_throws_iff_zero_denominator (n d : Z) :
  (throws (BigRational.new n d) InvalidDenominator <-> d = 0)
  /\ ((exists e, throws (BigRational.new n d) e) <-> d = 0)
  /\ ((exists r, BigRational.new n d = Return r
                 /\ BigRational.getNumerator r = n
                 /\ BigRational.getDenominator r = d) <-> d <> 0).
Proof.
  unfold throws. split; [| split]; split.
  - intros H. apply new_Throw_inv in H. tauto.
  - intros ->. apply new_zero.
  - intros [e H]. apply new_Throw_inv in H. tauto.
  - intros ->. exists InvalidDenominator. apply new_zero.
  - intros [r [H _]]. apply new_Return_inv in H. tauto.
  - intros Hd. exists (mk n d). rewrite (new_nonzero n d Hd). repeat split.
Qed.

(** C3. [inverse()] throws the invalid-denominator error if and only if the
    numerator is zero, and otherwise returns the instance with the two
    fields swapped; [div(other)] throws that error if and only if [other]'s
    numerator is zero; the error is the one construction with a zero
    denominator throws; (5,2).div((0,5)) throws it. *)
Theorem inverse_div_throw_iff_zero_numerator (a b : BigRational) :
  valid a -> valid b ->
  (throws (BigRational.inverse b) InvalidDenominator <-> numerator b = 0)
  /\ (BigRational.inverse b = Return (mk (denominator b) (numerator b))
      <-> numerator b <> 0)
  /\ (throws (BigRational.div a b) InvalidDenominator <-> numerator b = 0)
  /\ (returns (BigRational.div a b) <-> numerator b <> 0)
  /\ (forall n, throws (BigRational.new n 0) InvalidDenominator)
  /\ throws (BigRational.div (mk 5 2) (mk 0 5)) InvalidDenominator.
Proof.
  intros Ha Hb. unfold throws, returns, BigRational.div, BigRational.inverse.
  destruct (Z.eq_dec (numerator b) 0) as [E | NE].
  - rewrite E. simpl. repeat split; auto; try discriminate;
      try (intros NE; contradiction NE; reflexivity).
    intros [r H]. discriminate H.
  - rewrite (new_nonzero _ _ NE). simpl. unfold BigRational.mul. simpl.
    assert (Hm : numerator b * denominator a <> 0) by (unfold valid in Ha; nia).
    rewrite (new_nonzero _ _ Hm).
    repeat split; auto; try discriminate; try contradiction.
    eexists; reflexivity.
Qed.

Lemma inverse_div_throw_iff_zero_numerator_witness :
  valid (mk 5 2) /\ valid (mk 3 4)
  /\ BigRational.inverse (mk 3 4) = Return (mk 4 3)
  /\ returns (BigRational.div (mk 5 2) (mk 3 4)).
Proof.
  assert (Ha : valid (mk 5 2)) by discriminate.
  assert (Hb : valid (mk 3 4)) by discriminate.
  split; [exact Ha | split; [exact Hb |]].
  destruct (inverse_div_throw_iff_zero_numerator (mk 5 2) (mk 3 4) Ha Hb)
    as [_ [[_ I] [_ [[_ D] _]]]].
  split; [apply I | apply D]; discriminate.
Defined.

(** ** Arithmetic *)

Lemma negate_Return (r : BigRational) :
  valid r ->
  BigRational.negate r = Return (mk (- numerator r) (denominator r)).
Proof. intros Hr. unfold BigRational.negate. apply new_nonzero. exact Hr. Qed.

Lemma add_Return (a b : BigRational) :
  valid a -> valid b ->
  BigRational.add a b =
    Return (mk (numerator b * denominator a + numerator a * denominator b)
               (denominator a * denominator b)).
Proof.
  intros Ha Hb. unfold BigRational.add, BigRational.toPair.
  apply new_nonzero. unfold valid in *. nia.
Qed.

Lemma subtract_Return (a b : BigRational) :
  valid a -> valid b ->
  BigRational.subtract a b =
    Return (mk (- numerator b * denominator a + numerator a * denominator b)
               (denominator a * denominator b)).
Proof.
  intros Ha Hb. unfold BigRational.subtract.
  rewrite (negate_Return b Hb). simpl.
  apply (add_Return a (mk (- numerator b) (denominator b)) Ha Hb).
Qed.

(** C6. For valid instances [a] and [b], [a.add(b)] returns the instance
    whose numerator is [b.numerator * a.denominator + a.numerator * b.denominator]
    and whose denominator is [a.denominator * b.denominator], unreduced;
    (5,2).add((3,4)) returns exactly (26, 8). *)
Theorem add_cross_multiplies (a b : BigRational) :
  valid a -> valid b ->
  BigRational.add a b =
    Return (mk (numerator b * denominator a + numerator a * denominator b)
               (denominator a * denominator b))
  /\ BigRational.add (mk 5 2) (mk 3 4) = Return (mk 26 8).
Proof.
  intros Ha Hb. split; [| reflexivity].
  apply add_Return; assumption.
Qed.

Lemma add_cross_multiplies_witness :
  valid (mk 1 (-3)) /\ valid (mk 2 6)
  /\ BigRational.add (mk 1 (-3)) (mk 2 6) = Return (mk 0 (-18)).
Proof.
  assert (Ha : valid (mk 1 (-3))) by discriminate.
  assert (Hb : valid (mk 2 6)) by discriminate.
  split; [exact Ha | split; [exact Hb |]].
  exact (proj1 (add_cross_multiplies (mk 1 (-3)) (mk 2 6) Ha Hb)).
Defined.

(** Two valid instances with equal cross products are [eq]. *)
Lemma eq_cross (a b : BigRational) :
  valid a -> valid b ->
  numerator a * denominator b = numerator b * denominator a ->
  BigRational.eq a b = true.
Proof.
  intros Ha Hb E. unfold BigRational.eq.
  rewrite (lte_unfold a b Ha Hb), (lte_unfold b a Hb Ha), E, !Z.geb_leb, !Z.leb_refl.
  destruct (xorb _ _), (xorb _ _); reflexivity.
Qed.

Lemma mul_Return (a b : BigRational) :
  valid a -> valid b ->
  BigRational.mul a b =
    Return (mk (numerator b * numerator a) (denominator b * denominator a)).
Proof.
  intros Ha Hb. unfold BigRational.mul. apply new_nonzero. unfold valid in *. nia.
Qed.

Lemma div_Return (a b : BigRational) :
  valid a -> numerator b <> 0 ->
  BigRational.div a b =
    Return (mk (denominator b * numerator a) (numerator b * denominator a)).
Proof.
  intros Ha Hb. unfold BigRational.div, BigRational.inverse.
  rewrite (new_nonzero _ _ Hb). simpl.
  apply (mul_Return a (mk (denominator b) (numerator b)) Ha Hb).
Qed.

(** C8. For valid instances [a] and [b] with [b]'s numerator nonzero,
    [a.div(b)] returns, [.mul(b)] of the quotient returns, and the product
    is [eq] to [a]. *)
Theorem div_then_mul_eq (a b : BigRational) :
  valid a -> valid b -> numerator b <> 0 ->
  (let* q := BigRational.div a b in
   let* p := BigRational.mul q b in
   Return (BigRational.eq p a)) = Return true.
Proof.
  intros Ha Hb Hn.
  rewrite (div_Return a b Ha Hn). simpl.
  assert (Hq : valid (mk (denominator b * numerator a) (numerator b * denominator a)))
    by (unfold valid in *; simpl; nia).
  rewrite (mul_Return _ b Hq Hb). simpl. f_equal.
  apply eq_cross.
  - unfold valid in *; simpl in *; nia.
  - exact Ha.
  - simpl. ring.
Qed.

Lemma div_then_mul_eq_witness :
  valid (mk 5 2) /\ valid (mk (-3) 4) /\ numerator (mk (-3) 4) <> 0
  /\ (let* q := BigRational.div (mk 5 2) (mk (-3) 4) in
      let* p := BigRational.mul q (mk (-3) 4) in
      Return (BigRational.eq p (mk 5 2))) = Return true.
Proof.
  assert (Ha : valid (mk 5 2)) by discriminate.
  assert (Hb : valid (mk (-3) 4)) by discriminate.
  assert (Hn : numerator (mk (-3) 4) <> 0) by discriminate.
  split; [exact Ha | split; [exact Hb | split; [exact Hn |]]].
  exact (div_then_mul_eq (mk 5 2) (mk (-3) 4) Ha Hb Hn).
Defined.

(** ** Reduction *)

(** The divisor [reduce] computes for a valid instance is positive and
    divides both fields. *)
Lemma gcd_valid (r : BigRational) :
  valid r ->
  exists n' d',
    0 < Z.gcd (numerator r) (denominator r)
    /\ numerator r = n' * Z.gcd (numerator r) (denominator r)
    /\ denominator r = d' * Z.gcd (numerator r) (denominator r)
    /\ d' <> 0
    /\ Z.gcd n' d' = 1.
Proof.
  unfold valid. intros Hd.
  set (g := Z.gcd (numerator r) (denominator r)).
  assert (Hg : 0 < g).
  { pose proof (Z.gcd_nonneg (numerator r) (denominator r)) as Hnn.
    destruct (Z.eq_dec g 0) as [E | NE]; [| fold g in Hnn; lia].
    apply Z.gcd_eq_0_r in E. contradiction. }
  destruct (Z.gcd_divide_l (numerator r) (denominator r)) as [n' Hn'].
  destruct (Z.gcd_divide_r (numerator r) (denominator r)) as [d' Hd'].
  fold g in Hn', Hd'.
  exists n', d'. repeat split; try assumption.
  - intros ->. lia.
  - assert (E : g = Z.gcd n' d' * g).
    { unfold g at 1. rewrite Hn', Hd'. apply Z.gcd_mul_mono_r_nonneg. lia. }
    nia.
Qed.

Lemma reduce_Return (r : BigRational) :
  valid r ->
  exists n' d',
    BigRational.reduce r = Return (mk n' d')
    /\ 0 < Z.gcd (numerator r) (denominator r)
    /\ numerator r = n' * Z.gcd (numerator r) (denominator r)
    /\ denominator r = d' * Z.gcd (numerator r) (denominator r)
    /\ d' <> 0
    /\ Z.gcd n' d' = 1.
Proof.
  intros Hr. destruct (gcd_valid r Hr) as [n' [d' [Hg [Hn [Hd [Hd' H1]]]]]].
  exists n', d'. repeat split; try assumption.
  unfold BigRational.reduce, BigRational.toPair.
  rewrite gcd_Return. simpl.
  remember (Z.gcd (numerator r) (denominator r)) as g eqn:Eg.
  rewrite Hn, Hd, !Z.quot_mul by lia.
  apply new_nonzero. exact Hd'.
Qed.

(** C4. For every valid instance, [reduce()] returns, and what it returns
    is [eq] to the original; [reduce()] of (10, 20) is (1, 2). *)
Theorem reduce_returns_eq (r : BigRational) :
  valid r ->
  (exists r', BigRational.reduce r = Return r' /\ BigRational.eq r' r = true)
  /\ BigRational.reduce (mk 10 20) = Return (mk 1 2).
Proof.
  intros Hr. split; [| vm_compute; reflexivity].
  destruct (reduce_Return r Hr) as [n' [d' [E [Hg [Hn [Hd [Hd' _]]]]]]].
  exists (mk n' d'). split; [exact E |].
  apply eq_cross; [exact Hd' | exact Hr |].
  simpl. remember (Z.gcd (numerator r) (denominator r)) as g eqn:Eg.
  rewrite Hn, Hd. ring.
Qed.

Lemma reduce_returns_eq_witness :
  valid (mk 6 (-4))
  /\ exists r', BigRational.reduce (mk 6 (-4)) = Return r' /\ BigRational.eq r' (mk 6 (-4)) = true.
Proof.
  assert (Hr : valid (mk 6 (-4))) by discriminate.
  split; [exact Hr |].
  exact (proj1 (reduce_returns_eq (mk 6 (-4)) Hr)).
Defined.

(** C9. For every valid instance, the divisor [reduce()] divides by is
    strictly positive, [reduce()] keeps the sign of the numerator and the
    sign of the denominator, and reducing the result again returns the very
    same numerator and denominator; [reduce()] of (-10, -20) is (-1, -2). *)
Theorem reduce_keeps_signs_idempotent (r : BigRational) :
  valid r ->
  (exists g, BigRational.gcd (numerator r) (denominator r) = Return g /\ 0 < g)
  /\ (exists r',
        BigRational.reduce r = Return r'
        /\ Z.sgn (numerator r') = Z.sgn (numerator r)
        /\ Z.sgn (denominator r') = Z.sgn (denominator r)
        /\ BigRational.reduce r' = Return r')
  /\ BigRational.reduce (mk (-10) (-20)) = Return (mk (-1) (-2)).
Proof.
  intros Hr. destruct (reduce_Return r Hr) as [n' [d' [E [Hg [Hn [Hd [Hd' H1]]]]]]].
  split; [| split; [| vm_compute; reflexivity]].
  - exists (Z.gcd (numerator r) (denominator r)). split; [apply gcd_Return | exact Hg].
  - exists (mk n' d'). split; [exact E |]. simpl. repeat split.
    + remember (Z.gcd (numerator r) (denominator r)) as g eqn:Eg.
      rewrite Hn, Z.sgn_mul, (Z.sgn_pos _ Hg). ring.
    + remember (Z.gcd (numerator r) (denominator r)) as g eqn:Eg.
      rewrite Hd, Z.sgn_mul, (Z.sgn_pos _ Hg). ring.
    + unfold BigRational.reduce, BigRational.toPair. simpl.
      rewrite gcd_Return, H1. simpl. rewrite !Z.quot_1_r.
      apply new_nonzero. exact Hd'.
Qed.

Lemma reduce_keeps_signs_idempotent_witness :
  valid (mk 6 (-4))
  /\ exists r',
       BigRational.reduce (mk 6 (-4)) = Return r'
       /\ Z.sgn (numerator r') = 1
       /\ Z.sgn (denominator r') = -1
       /\ BigRational.reduce r' = Return r'.
Proof.
  assert (Hr : valid (mk 6 (-4))) by discriminate.
  split; [exact Hr |].
  exact (proj1 (proj2 (reduce_keeps_signs_idempotent (mk 6 (-4)) Hr))).
Defined.

(** ** Absolute value and sign tests *)

Lemma abs_Return (r : BigRational) :
  valid r ->
  BigRational.abs r = Return (mk (Z.abs (numerator r)) (Z.abs (denominator r))).
Proof.
  intros Hr. unfold BigRational.abs.
  assert (A : forall n, (if n >=? 0 then n else - n) = Z.abs n).
  { intros n. rewrite Z.geb_leb. destruct (Z.leb_spec 0 n); lia. }
  rewrite !A. apply new_nonzero. unfold valid in Hr. lia.
Qed.

(** C10. For every valid instance [r], [r.abs()] returns an instance whose
    numerator is non-negative and whose denominator is strictly positive;
    [isNegative()] of it is false, and [isPositive()] of it is true if and
    only if [r]'s numerator is nonzero. *)
Theorem abs_sign (r : BigRational) :
  valid r ->
  exists r',
    BigRational.abs r = Return r'
    /\ 0 <= numerator r'
    /\ 0 < denominator r'
    /\ BigRational.isNegative r' = false
    /\ (BigRational.isPositive r' = true <-> numerator r <> 0).
Proof.
  intros Hr. exists (mk (Z.abs (numerator r)) (Z.abs (denominator r))).
  split; [apply abs_Return; exact Hr |].
  unfold valid in Hr. unfold BigRational.isNegative, BigRational.isPositive. simpl.
  assert (Hd : 0 < Z.abs (denominator r)) by lia.
  assert (Hn : 0 <= Z.abs (numerator r)) by lia.
  repeat split; try assumption.
  - destruct (Z.eqb_spec (Z.abs (numerator r)) 0), (Z.gtb_spec (Z.abs (numerator r)) 0),
      (Z.gtb_spec (Z.abs (denominator r)) 0); simpl; try reflexivity; lia.
  - destruct (Z.gtb_spec (Z.abs (numerator r)) 0), (Z.ltb_spec (Z.abs (numerator r)) 0);
      simpl; try discriminate; lia.
  - intros Hne.
    destruct (Z.gtb_spec (Z.abs (numerator r)) 0), (Z.gtb_spec (Z.abs (denominator r)) 0);
      simpl; try reflexivity; lia.
Qed.

Lemma abs_sign_witness :
  valid (mk (-5) (-2))
  /\ exists r',
       BigRational.abs (mk (-5) (-2)) = Return r'
       /\ 0 <= numerator r'
       /\ 0 < denominator r'
       /\ BigRational.isNegative r' = false
       /\ (BigRational.isPositive r' = true <-> numerator (mk (-5) (-2)) <> 0).
Proof.
  assert (Hr : valid (mk (-5) (-2))) by discriminate.
  split; [exact Hr |].
  exact (abs_sign (mk (-5) (-2)) Hr).
Defined.

(** ** Totality *)

Lemma Return_returns_valid (r : BigRational) : valid r -> returns_valid (Return r).
Proof. intros Hr. exists r. split; [reflexivity | exact Hr]. Qed.

Lemma returns_valid_never_throws (c : completion BigRational) :
  returns_valid c -> forall e, ~ throws c e.
Proof. intros [r [-> _]] e. apply Return_not_Throw. Qed.

(** C5. For valid instances [a] and [b], [add], [subtract], [mul], [abs],
    [negate] and [reduce] return (a valid instance) and throw nothing: the
    constructor's zero-denominator branch is not reached.  The comparisons
    [lte], [lt], [eq], [gte], [gt] contain no constructor call and no
    [throw]; each yields a boolean. *)
Theorem operations_total (a b : BigRational) :
  valid a -> valid b ->
  (returns_valid (BigRational.add a b)
   /\ returns_valid (BigRational.subtract a b)
   /\ returns_valid (BigRational.mul a b)
   /\ returns_valid (BigRational.abs a)
   /\ returns_valid (BigRational.negate a)
   /\ returns_valid (BigRational.reduce a))
  /\ (forall e,
        ~ throws (BigRational.add a b) e
        /\ ~ throws (BigRational.subtract a b) e
        /\ ~ throws (BigRational.mul a b) e
        /\ ~ throws (BigRational.abs a) e
        /\ ~ throws (BigRational.negate a) e
        /\ ~ throws (BigRational.reduce a) e)
  /\ (exists le l e ge g : bool,
        BigRational.lte a b = le /\ BigRational.lt a b = l /\ BigRational.eq a b = e
        /\ BigRational.gte a b = ge /\ BigRational.gt a b = g).
Proof.
  intros Ha Hb.
  assert (T : returns_valid (BigRational.add a b)
              /\ returns_valid (BigRational.subtract a b)
              /\ returns_valid (BigRational.mul a b)
              /\ returns_valid (BigRational.abs a)
              /\ returns_valid (BigRational.negate a)
              /\ returns_valid (BigRational.reduce a)).
  { rewrite (add_Return a b Ha Hb), (subtract_Return a b Ha Hb), (mul_Return a b Ha Hb),
      (abs_Return a Ha), (negate_Return a Ha).
    destruct (reduce_Return a Ha) as [n' [d' [E [_ [_ [_ [Hd' _]]]]]]]. rewrite E.
    unfold valid in *.
    repeat split; apply Return_returns_valid; unfold valid; simpl; try assumption; nia. }
  split; [exact T | split].
  - intros e. destruct T as [T1 [T2 [T3 [T4 [T5 T6]]]]].
    repeat split; apply returns_valid_never_throws; assumption.
  - do 5 eexists. repeat split.
Qed.

Lemma operations_total_witness :
  valid (mk 5 (-2)) /\ valid (mk 0 4)
  /\ returns_valid (BigRational.add (mk 5 (-2)) (mk 0 4))
  /\ returns_valid (BigRational.subtract (mk 5 (-2)) (mk 0 4))
  /\ returns_valid (BigRational.mul (mk 5 (-2)) (mk 0 4))
  /\ returns_valid (BigRational.abs (mk 5 (-2)))
  /\ returns_valid (BigRational.negate (mk 5 (-2)))
  /\ returns_valid (BigRational.reduce (mk 5 (-2))).
Proof.
  assert (Ha : valid (mk 5 (-2))) by discriminate.
  assert (Hb : valid (mk 0 4)) by discriminate.
  split; [exact Ha | split; [exact Hb |]].
  exact (proj1 (operations_total (mk 5 (-2)) (mk 0 4) Ha Hb)).
Defined.

(** * Further properties of the class *)

(** ** The arithmetic is the arithmetic of the represented rationals *)

Lemma inject_Z_nonzero (d : Z) : d <> 0 -> ~ (inject_Z d == 0)%Q.
Proof. intros Hd E. apply Hd. unfold Qeq in E. simpl in E. lia. Qed.

Lemma toQ_zero_iff (r : BigRational) :
  valid r -> ((toQ r == 0)%Q <-> numerator r = 0).
Proof.
  intros Hr. unfold toQ. destruct r as [n d]; simpl in *. unfold valid in Hr; simpl in Hr.
  destruct d as [| p | p]; try contradiction;
    unfold Qeq, Qdiv, Qinv, Qmult, inject_Z; simpl; lia.
Qed.

Ltac Q_of_fields :=
  unfold toQ; simpl; rewrite ?inject_Z_plus, ?inject_Z_mult, ?inject_Z_opp.

Ltac nonzero_fields :=
  repeat match goal with
         | H : valid _ |- _ => apply inject_Z_nonzero in H
         | H : numerator _ <> 0 |- _ => apply inject_Z_nonzero in H
         end.

(** X1. [a.add(b)] represents the sum of the two rationals. *)
Theorem add_represents_sum (a b : BigRational) :
  valid a -> valid b ->
  exists r, BigRational.add a b = Return r /\ (toQ r == toQ a + toQ b)%Q.
Proof.
  intros Ha Hb. eexists. split; [apply add_Return; assumption |].
  Q_of_fields. nonzero_fields. field. split; assumption.
Qed.

Lemma add_represents_sum_witness :
  valid (mk 1 2) /\ valid (mk 1 (-3))
  /\ exists r, BigRational.add (mk 1 2) (mk 1 (-3)) = Return r
               /\ (toQ r == toQ (mk 1 2) + toQ (mk 1 (-3)))%Q.
Proof.
  assert (Ha : valid (mk 1 2)) by discriminate.
  assert (Hb : valid (mk 1 (-3))) by discriminate.
  exact (conj Ha (conj Hb (add_represents_sum _ _ Ha Hb))).
Defined.

(** X2. [a.subtract(b)] represents the difference of the two rationals. *)
Theorem subtract_represents_difference (a b : BigRational) :
  valid a -> valid b ->
  exists r, BigRational.subtract a b = Return r /\ (toQ r == toQ a - toQ b)%Q.
Proof.
  intros Ha Hb. eexists. split; [apply subtract_Return; assumption |].
  Q_of_fields. nonzero_fields. field. split; assumption.
Qed.

Lemma subtract_represents_difference_witness :
  valid (mk 5 2) /\ valid (mk 3 4)
  /\ exists r, BigRational.subtract (mk 5 2) (mk 3 4) = Return r
               /\ (toQ r == toQ (mk 5 2) - toQ (mk 3 4))%Q.
Proof.
  assert (Ha : valid (mk 5 2)) by discriminate.
  assert (Hb : valid (mk 3 4)) by discriminate.
  exact (conj Ha (conj Hb (subtract_represents_difference _ _ Ha Hb))).
Defined.

(** X3. [a.mul(b)] represents the product of the two rationals. *)
Theorem mul_represents_product (a b : BigRational) :
  valid a -> valid b ->
  exists r, BigRational.mul a b = Return r /\ (toQ r == toQ a * toQ b)%Q.
Proof.
  intros Ha Hb. eexists. split; [apply mul_Return; assumption |].
  Q_of_fields. nonzero_fields. field. split; assumption.
Qed.

Lemma mul_represents_product_witness :
  valid (mk 5 (-2)) /\ valid (mk 3 4)
  /\ exists r, BigRational.mul (mk 5 (-2)) (mk 3 4) = Return r
               /\ (toQ r == toQ (mk 5 (-2)) * toQ (mk 3 4))%Q.
Proof.
  assert (Ha : valid (mk 5 (-2))) by discriminate.
  assert (Hb : valid (mk 3 4)) by discriminate.
  exact (conj Ha (conj Hb (mul_represents_product _ _ Ha Hb))).
Defined.

(** X4. [a.div(b)], for [b] with a nonzero numerator, represents the quotient
    of the two rationals. *)
Theorem div_represents_quotient (a b : BigRational) :
  valid a -> valid b -> numerator b <> 0 ->
  exists r, BigRational.div a b = Return r /\ valid r /\ (toQ r == toQ a / toQ b)%Q.
Proof.
  intros Ha Hb Hn. eexists. split; [apply div_Return; assumption |]. split.
  - unfold valid in *; simpl; nia.
  - Q_of_fields. nonzero_fields. field. repeat split; assumption.
Qed.

Lemma div_represents_quotient_witness :
  valid (mk 5 2) /\ valid (mk (-3) 4) /\ numerator (mk (-3) 4) <> 0
  /\ exists r, BigRational.div (mk 5 2) (mk (-3) 4) = Return r /\ valid r
               /\ (toQ r == toQ (mk 5 2) / toQ (mk (-3) 4))%Q.
Proof.
  assert (Ha : valid (mk 5 2)) by discriminate.
  assert (Hb : valid (mk (-3) 4)) by discriminate.
  assert (Hn : numerator (mk (-3) 4) <> 0) by discriminate.
  exact (conj Ha (conj Hb (conj Hn (div_represents_quotient _ _ Ha Hb Hn)))).
Defined.

(** X5. [r.negate()] represents the opposite rational, and negating twice
    gives back the very same numerator and denominator. *)
Theorem negate_represents_opposite_involutive (r : BigRational) :
  valid r ->
  (exists r', BigRational.negate r = Return r' /\ (toQ r' == - toQ r)%Q)
  /\ (let* n := BigRational.negate r in BigRational.negate n) = Return r.
Proof.
  intros Hr. split.
  - eexists. split; [apply negate_Return; assumption |].
    Q_of_fields. nonzero_fields. field. assumption.
  - rewrite (negate_Return r Hr). simpl.
    rewrite (negate_Return (mk (- numerator r) (denominator r)) Hr). simpl.
    rewrite Z.opp_involutive. destruct r; reflexivity.
Qed.

Lemma negate_represents_opposite_involutive_witness :
  valid (mk 5 (-2))
  /\ (let* n := BigRational.negate (mk 5 (-2)) in BigRational.negate n) = Return (mk 5 (-2)).
Proof.
  assert (Hr : valid (mk 5 (-2))) by discriminate.
  exact (conj Hr (proj2 (negate_represents_opposite_involutive _ Hr))).
Defined.

(** X6. [r.inverse()], for [r] with a nonzero numerator, represents the
    reciprocal rational, and inverting twice gives back the very same
    numerator and denominator. *)
Theorem inverse_represents_reciprocal_involutive (r : BigRational) :
  valid r -> numerator r <> 0 ->
  (exists r', BigRational.inverse r = Return r' /\ (toQ r' == / toQ r)%Q)
  /\ (let* i := BigRational.inverse r in BigRational.inverse i) = Return r.
Proof.
  intros Hr Hn. unfold BigRational.inverse. rewrite (new_nonzero _ _ Hn). simpl. split.
  - eexists. split; [reflexivity |].
    Q_of_fields. nonzero_fields. field. split; assumption.
  - rewrite (new_nonzero _ _ Hr). destruct r; reflexivity.
Qed.

Lemma inverse_represents_reciprocal_involutive_witness :
  valid (mk (-2) 3) /\ numerator (mk (-2) 3) <> 0
  /\ (let* i := BigRational.inverse (mk (-2) 3) in BigRational.inverse i) = Return (mk (-2) 3).
Proof.
  assert (Hr : valid (mk (-2) 3)) by discriminate.
  assert (Hn : numerator (mk (-2) 3) <> 0) by discriminate.
  exact (conj Hr (conj Hn (proj2 (inverse_represents_reciprocal_involutive _ Hr Hn)))).
Defined.

(** X7. [r.abs()] represents the absolute value of the rational, and taking it
    twice changes nothing more. *)
Theorem abs_represents_absolute_value_idempotent (r : BigRational) :
  valid r ->
  exists r',
    BigRational.abs r = Return r'
    /\ (toQ r' == Qabs (toQ r))%Q
    /\ BigRational.abs r' = Return r'.
Proof.
  intros Hr. eexists. split; [apply abs_Return; assumption | split].
  - unfold toQ; cbn [numerator denominator].
    unfold Qdiv. rewrite Qabs_Qmult, Qabs_Qinv. reflexivity.
  - assert (Hr' : valid (mk (Z.abs (numerator r)) (Z.abs (denominator r))))
      by (unfold valid in *; simpl; lia).
    rewrite (abs_Return _ Hr'). simpl. rewrite !Z.abs_idemp. reflexivity.
Qed.

Lemma abs_represents_absolute_value_idempotent_witness :
  valid (mk (-5) 2)
  /\ exists r',
       BigRational.abs (mk (-5) 2) = Return r'
       /\ (toQ r' == Qabs (toQ (mk (-5) 2)))%Q
       /\ BigRational.abs r' = Return r'.
Proof.
  assert (Hr : valid (mk (-5) 2)) by discriminate.
  exact (conj Hr (abs_represents_absolute_value_idempotent _ Hr)).
Defined.

(** ** The comparisons are the order of the represented rationals *)

Lemma negb_true_iff_not (x : bool) : negb x = true <-> ~ x = true.
Proof. destruct x; simpl; split; intros H; try discriminate; auto; contradiction H; reflexivity. Qed.

Lemma lt_iff_Qlt (a b : BigRational) :
  valid a -> valid b -> (BigRational.lt a b = true <-> (toQ a < toQ b)%Q).
Proof.
  intros Ha Hb. unfold BigRational.lt.
  rewrite andb_true_iff, negb_true_iff_not, (lte_iff_Qle a b Ha Hb), (lte_iff_Qle b a Hb Ha).
  split.
  - intros [_ N]. apply Qnot_le_lt. exact N.
  - intros L. split; [apply Qlt_le_weak; exact L | apply Qlt_not_le; exact L].
Qed.

Lemma eq_iff_Qeq (a b : BigRational) :
  valid a -> valid b -> (BigRational.eq a b = true <-> (toQ a == toQ b)%Q).
Proof.
  intros Ha Hb. unfold BigRational.eq.
  rewrite andb_true_iff, (lte_iff_Qle a b Ha Hb), (lte_iff_Qle b a Hb Ha).
  split.
  - intros [L1 L2]. apply Qle_antisym; assumption.
  - intros E. rewrite E. split; apply Qle_refl.
Qed.

Lemma Qeq_div_cross (n1 d1 n2 d2 : Z) :
  d1 <> 0 -> d2 <> 0 ->
  ((inject_Z n1 / inject_Z d1 == inject_Z n2 / inject_Z d2)%Q <-> n1 * d2 = n2 * d1).
Proof.
  intros H1 H2. split.
  - intros E.
    assert (L1 := Qle_div_cross n1 d1 n2 d2 H1 H2).
    assert (L2 := Qle_div_cross n2 d2 n1 d1 H2 H1).
    rewrite E in L1. rewrite E in L2.
    pose proof (proj1 L1 (Qle_refl _)) as P1. pose proof (proj1 L2 (Qle_refl _)) as P2.
    rewrite xorb_comm in P2.
    destruct (xorb _ _); lia.
  - intros E. apply Qle_antisym.
    + apply (Qle_div_cross n1 d1 n2 d2 H1 H2). destruct (xorb _ _); lia.
    + apply (Qle_div_cross n2 d2 n1 d1 H2 H1). destruct (xorb _ _); lia.
Qed.

(** X8. [a.eq(b)] is true exactly when the two instances represent the same
    rational, that is when their cross products
    [a.numerator * b.denominator] and [b.numerator * a.denominator] are
    equal; the stored pairs themselves may differ. *)
Theorem eq_iff_same_rational (a b : BigRational) :
  valid a -> valid b ->
  (BigRational.eq a b = true <-> (toQ a == toQ b)%Q)
  /\ (BigRational.eq a b = true
      <-> numerator a * denominator b = numerator b * denominator a).
Proof.
  intros Ha Hb. split; [apply eq_iff_Qeq; assumption |].
  rewrite (eq_iff_Qeq a b Ha Hb). unfold toQ. apply Qeq_div_cross; assumption.
Qed.

Lemma eq_iff_same_rational_witness :
  valid (mk 5 2) /\ valid (mk (-10) (-4))
  /\ (BigRational.eq (mk 5 2) (mk (-10) (-4)) = true
      <-> numerator (mk 5 2) * denominator (mk (-10) (-4))
          = numerator (mk (-10) (-4)) * denominator (mk 5 2)).
Proof.
  assert (Ha : valid (mk 5 2)) by discriminate.
  assert (Hb : valid (mk (-10) (-4))) by discriminate.
  exact (conj Ha (conj Hb (proj2 (eq_iff_same_rational _ _ Ha Hb)))).
Defined.

(** X9. [lt], [gte] and [gt] are the strict and the reversed orders of the
    represented rationals. *)
Theorem lt_gte_gt_agree_with_order (a b : BigRational) :
  valid a -> valid b ->
  (BigRational.lt a b = true <-> (toQ a < toQ b)%Q)
  /\ (BigRational.gte a b = true <-> (toQ b <= toQ a)%Q)
  /\ (BigRational.gt a b = true <-> (toQ b < toQ a)%Q).
Proof.
  intros Ha Hb. split; [| split].
  - apply lt_iff_Qlt; assumption.
  - unfold BigRational.gte. apply lte_iff_Qle; assumption.
  - unfold BigRational.gt. apply lt_iff_Qlt; assumption.
Qed.

Lemma lt_gte_gt_agree_with_order_witness :
  valid (mk 3 (-4)) /\ valid (mk 5 2)
  /\ (BigRational.lt (mk 3 (-4)) (mk 5 2) = true <-> (toQ (mk 3 (-4)) < toQ (mk 5 2))%Q).
Proof.
  assert (Ha : valid (mk 3 (-4))) by discriminate.
  assert (Hb : valid (mk 5 2)) by discriminate.
  exact (conj Ha (conj Hb (proj1 (lt_gte_gt_agree_with_order _ _ Ha Hb)))).
Defined.

(** X10. Each comparison is the negation of the opposite one: [a.gt(b)] is
    [!a.lte(b)], [a.lt(b)] is [!a.gte(b)], and [a.eq(b)] holds exactly when
    neither [a.lt(b)] nor [a.gt(b)] does. *)
Theorem comparisons_complement (a b : BigRational) :
  valid a -> valid b ->
  BigRational.gt a b = negb (BigRational.lte a b)
  /\ BigRational.lt a b = negb (BigRational.gte a b)
  /\ BigRational.eq a b = negb (BigRational.lt a b) && negb (BigRational.gt a b).
Proof.
  intros Ha Hb.
  unfold BigRational.gt, BigRational.gte, BigRational.lt, BigRational.eq.
  destruct (lte_total a b Ha Hb) as [L | L]; rewrite L.
  - destruct (BigRational.lte b a); repeat split.
  - destruct (BigRational.lte a b); repeat split.
Qed.

Lemma comparisons_complement_witness :
  valid (mk 5 2) /\ valid (mk 3 (-4))
  /\ BigRational.gt (mk 5 2) (mk 3 (-4)) = negb (BigRational.lte (mk 5 2) (mk 3 (-4))).
Proof.
  assert (Ha : valid (mk 5 2)) by discriminate.
  assert (Hb : valid (mk 3 (-4))) by discriminate.
  exact (conj Ha (conj Hb (proj1 (comparisons_complement _ _ Ha Hb)))).
Defined.

(** X11. [lte] is a preorder on valid instances: it is reflexive and
    transitive, and two instances below each other are [eq]. *)
Theorem lte_preorder (a b c : BigRational) :
  valid a -> valid b -> valid c ->
  BigRational.lte a a = true
  /\ (BigRational.lte a b = true -> BigRational.lte b c = true -> BigRational.lte a c = true)
  /\ (BigRational.lte a b = true -> BigRational.lte b a = true -> BigRational.eq a b = true).
Proof.
  intros Ha Hb Hc. split; [| split].
  - apply (lte_iff_Qle a a Ha Ha). apply Qle_refl.
  - rewrite (lte_iff_Qle a b Ha Hb), (lte_iff_Qle b c Hb Hc), (lte_iff_Qle a c Ha Hc).
    apply Qle_trans.
  - intros L1 L2. unfold BigRational.eq. rewrite L1, L2. reflexivity.
Qed.

Lemma lte_preorder_witness :
  valid (mk 1 (-2)) /\ valid (mk 1 3) /\ valid (mk (-5) (-2))
  /\ BigRational.lte (mk 1 (-2)) (mk (-5) (-2)) = true.
Proof.
  assert (Ha : valid (mk 1 (-2))) by discriminate.
  assert (Hb : valid (mk 1 3)) by discriminate.
  assert (Hc : valid (mk (-5) (-2))) by discriminate.
  refine (conj Ha (conj Hb (conj Hc _))).
  apply (proj1 (proj2 (lte_preorder _ _ _ Ha Hb Hc))); reflexivity.
Defined.

(** X12. [eq] is an equivalence relation on valid instances. *)
Theorem eq_equivalence (a b c : BigRational) :
  valid a -> valid b -> valid c ->
  BigRational.eq a a = true
  /\ BigRational.eq a b = BigRational.eq b a
  /\ (BigRational.eq a b = true -> BigRational.eq b c = true -> BigRational.eq a c = true).
Proof.
  intros Ha Hb Hc. split; [| split].
  - apply (eq_iff_Qeq a a Ha Ha). reflexivity.
  - unfold BigRational.eq. apply andb_comm.
  - rewrite (eq_iff_Qeq a b Ha Hb), (eq_iff_Qeq b c Hb Hc), (eq_iff_Qeq a c Ha Hc).
    intros E1 E2. rewrite E1. exact E2.
Qed.

Lemma eq_equivalence_witness :
  valid (mk 1 2) /\ valid (mk (-2) (-4)) /\ valid (mk 3 6)
  /\ BigRational.eq (mk 1 2) (mk 3 6) = true.
Proof.
  assert (Ha : valid (mk 1 2)) by discriminate.
  assert (Hb : valid (mk (-2) (-4))) by discriminate.
  assert (Hc : valid (mk 3 6)) by discriminate.
  refine (conj Ha (conj Hb (conj Hc _))).
  apply (proj2 (proj2 (eq_equivalence _ _ _ Ha Hb Hc))); reflexivity.
Defined.

(** ** Sign tests *)

Lemma sign_tests_Q (r : BigRational) :
  valid r ->
  (BigRational.isPositive r = true <-> (0 < toQ r)%Q)
  /\ (BigRational.isNegative r = true <-> (toQ r < 0)%Q).
Proof.
  destruct r as [[| n | n] [| d | d]]; unfold valid; simpl; intros Hr;
    try (contradiction Hr; reflexivity);
    unfold BigRational.isPositive, BigRational.isNegative, toQ, Qlt, Qdiv, Qinv, Qmult,
      inject_Z; simpl;
    split; split; intros H; try reflexivity; try discriminate H; try lia.
Qed.

(** X13. The sign tests read the sign of the represented rational:
    [isPositive()] is true exactly when it is greater than zero,
    [isNegative()] exactly when it is less than zero, and both are false
    exactly when the numerator is zero. *)
Theorem sign_tests_agree_with_sign (r : BigRational) :
  valid r ->
  (BigRational.isPositive r = true <-> (0 < toQ r)%Q)
  /\ (BigRational.isNegative r = true <-> (toQ r < 0)%Q)
  /\ (BigRational.isPositive r = false /\ BigRational.isNegative r = false
      <-> numerator r = 0)
  /\ (BigRational.isPositive r && BigRational.isNegative r = false).
Proof.
  intros Hr. destruct (sign_tests_Q r Hr) as [P N].
  split; [exact P | split; [exact N |]].
  unfold BigRational.isNegative. split.
  - destruct (Z.eqb_spec (numerator r) 0) as [E | NE]; simpl.
    + split; [intros _; exact E | intros _].
      unfold BigRational.isPositive. rewrite E. split; reflexivity.
    + destruct (BigRational.isPositive r); simpl; split;
        intros H; try lia; destruct H; discriminate.
  - destruct (BigRational.isPositive r); simpl; [| reflexivity].
    apply andb_false_r.
Qed.

Lemma sign_tests_agree_with_sign_witness :
  valid (mk 5 (-2))
  /\ (BigRational.isNegative (mk 5 (-2)) = true <-> (toQ (mk 5 (-2)) < 0)%Q).
Proof.
  assert (Hr : valid (mk 5 (-2))) by discriminate.
  exact (conj Hr (proj1 (proj2 (sign_tests_agree_with_sign _ Hr)))).
Defined.

(** X14. The sign tests are the comparisons with zero: for any valid instance
    [z] with numerator zero, [r.isPositive()] is [r.gt(z)] and
    [r.isNegative()] is [r.lt(z)]. *)
Theorem sign_tests_compare_with_zero (r z : BigRational) :
  valid r -> valid z -> numerator z = 0 ->
  BigRational.isPositive r = BigRational.gt r z
  /\ BigRational.isNegative r = BigRational.lt r z.
Proof.
  intros Hr Hz Hn. destruct (sign_tests_Q r Hr) as [P N].
  assert (Z0 : (toQ z == 0)%Q) by (apply toQ_zero_iff; assumption).
  split; apply bool_eq_iff.
  - unfold BigRational.gt. rewrite P, (lt_iff_Qlt z r Hz Hr), Z0. reflexivity.
  - rewrite N, (lt_iff_Qlt r z Hr Hz), Z0. reflexivity.
Qed.

Lemma sign_tests_compare_with_zero_witness :
  valid (mk (-5) 2) /\ valid (mk 0 (-7)) /\ numerator (mk 0 (-7)) = 0
  /\ BigRational.isPositive (mk (-5) 2) = BigRational.gt (mk (-5) 2) (mk 0 (-7))
  /\ BigRational.isNegative (mk (-5) 2) = BigRational.lt (mk (-5) 2) (mk 0 (-7)).
Proof.
  assert (Hr : valid (mk (-5) 2)) by discriminate.
  assert (Hz : valid (mk 0 (-7))) by discriminate.
  assert (Hn : numerator (mk 0 (-7)) = 0) by reflexivity.
  exact (conj Hr (conj Hz (conj Hn (sign_tests_compare_with_zero _ _ Hr Hz Hn)))).
Defined.

(** X15. [negate()] exchanges the two sign tests. *)
Theorem negate_swaps_sign_tests (r : BigRational) :
  valid r ->
  exists r',
    BigRational.negate r = Return r'
    /\ BigRational.isPositive r' = BigRational.isNegative r
    /\ BigRational.isNegative r' = BigRational.isPositive r.
Proof.
  intros Hr. eexists. split; [apply negate_Return; assumption |].
  destruct r as [[| n | n] [| d | d]]; unfold valid in Hr; simpl in Hr;
    try (contradiction Hr; reflexivity); split; reflexivity.
Qed.

Lemma negate_swaps_sign_tests_witness :
  valid (mk 5 (-2))
  /\ exists r',
       BigRational.negate (mk 5 (-2)) = Return r'
       /\ BigRational.isPositive r' = BigRational.isNegative (mk 5 (-2))
       /\ BigRational.isNegative r' = BigRational.isPositive (mk 5 (-2)).
Proof.
  assert (Hr : valid (mk 5 (-2))) by discriminate.
  exact (conj Hr (negate_swaps_sign_tests _ Hr)).
Defined.

(** X16. [r.abs()] is [eq] to [r] when [r] is not negative and [eq] to
    [r.negate()] when it is. *)
Theorem abs_eq_self_or_negation (r : BigRational) :
  valid r ->
  exists r' n,
    BigRational.abs r = Return r'
    /\ BigRational.negate r = Return n
    /\ BigRational.eq r' (if BigRational.isNegative r then n else r) = true.
Proof.
  intros Hr. do 2 eexists.
  split; [apply abs_Return; assumption | split; [apply negate_Return; assumption |]].
  assert (Hr' : valid (mk (Z.abs (numerator r)) (Z.abs (denominator r))))
    by (unfold valid in *; simpl; lia).
  destruct (BigRational.isNegative r) eqn:E.
  - apply eq_cross; [exact Hr' | exact Hr |]. simpl.
    unfold BigRational.isNegative, BigRational.isPositive in E.
    destruct (Z.eqb_spec (numerator r) 0), (Z.gtb_spec (numerator r) 0),
      (Z.gtb_spec (denominator r) 0), (Z.ltb_spec (numerator r) 0),
      (Z.ltb_spec (denominator r) 0); simpl in E; try discriminate E; nia.
  - apply eq_cross; [exact Hr' | exact Hr |]. simpl.
    unfold valid in Hr.
    unfold BigRational.isNegative, BigRational.isPositive in E.
    destruct (Z.eqb_spec (numerator r) 0), (Z.gtb_spec (numerator r) 0),
      (Z.gtb_spec (denominator r) 0), (Z.ltb_spec (numerator r) 0),
      (Z.ltb_spec (denominator r) 0); simpl in E; try discriminate E; nia.
Qed.

Lemma abs_eq_self_or_negation_witness :
  valid (mk 5 (-2))
  /\ exists r' n,
       BigRational.abs (mk 5 (-2)) = Return r'
       /\ BigRational.negate (mk 5 (-2)) = Return n
       /\ BigRational.eq r' (if BigRational.isNegative (mk 5 (-2)) then n else mk 5 (-2)) = true.
Proof.
  assert (Hr : valid (mk 5 (-2))) by discriminate.
  exact (conj Hr (abs_eq_self_or_negation _ Hr)).
Defined.

(** ** Algebraic laws *)

Lemma eq_iff_cross (a b : BigRational) :
  valid a -> valid b ->
  (BigRational.eq a b = true
   <-> numerator a * denominator b = numerator b * denominator a).
Proof.
  intros Ha Hb. rewrite (eq_iff_Qeq a b Ha Hb). unfold toQ.
  apply Qeq_div_cross; assumption.
Qed.

Lemma add_valid (a b : BigRational) :
  valid a -> valid b ->
  valid (mk (numerator b * denominator a + numerator a * denominator b)
            (denominator a * denominator b)).
Proof. unfold valid; simpl. nia. Qed.

Lemma mul_valid (a b : BigRational) :
  valid a -> valid b ->
  valid (mk (numerator b * numerator a) (denominator b * denominator a)).
Proof. unfold valid; simpl. nia. Qed.

(** X17. [add] is commutative and associative on the stored pairs themselves:
    both sides return the very same numerator and denominator. *)
Theorem add_commutative_associative (a b c : BigRational) :
  valid a -> valid b -> valid c ->
  BigRational.add a b = BigRational.add b a
  /\ (let* s := BigRational.add a b in BigRational.add s c)
     = (let* t := BigRational.add b c in BigRational.add a t)
  /\ returns (let* s := BigRational.add a b in BigRational.add s c).
Proof.
  intros Ha Hb Hc.
  pose proof (add_valid a b Ha Hb) as Hab. pose proof (add_valid b c Hb Hc) as Hbc.
  rewrite (add_Return a b Ha Hb), (add_Return b a Hb Ha), (add_Return b c Hb Hc).
  simpl. rewrite (add_Return _ c Hab Hc), (add_Return a _ Ha Hbc). simpl.
  split; [| split].
  - f_equal. f_equal; ring.
  - f_equal. f_equal; ring.
  - eexists; reflexivity.
Qed.

Lemma add_commutative_associative_witness :
  valid (mk 1 2) /\ valid (mk 1 (-3)) /\ valid (mk 5 6)
  /\ (let* s := BigRational.add (mk 1 2) (mk 1 (-3)) in BigRational.add s (mk 5 6))
     = (let* t := BigRational.add (mk 1 (-3)) (mk 5 6) in BigRational.add (mk 1 2) t).
Proof.
  assert (Ha : valid (mk 1 2)) by discriminate.
  assert (Hb : valid (mk 1 (-3))) by discriminate.
  assert (Hc : valid (mk 5 6)) by discriminate.
  exact (conj Ha (conj Hb (conj Hc
           (proj1 (proj2 (add_commutative_associative _ _ _ Ha Hb Hc)))))).
Defined.

(** X18. [mul] is commutative and associative on the stored pairs themselves. *)
Theorem mul_commutative_associative (a b c : BigRational) :
  valid a -> valid b -> valid c ->
  BigRational.mul a b = BigRational.mul b a
  /\ (let* p := BigRational.mul a b in BigRational.mul p c)
     = (let* q := BigRational.mul b c in BigRational.mul a q)
  /\ returns (let* p := BigRational.mul a b in BigRational.mul p c).
Proof.
  intros Ha Hb Hc.
  pose proof (mul_valid a b Ha Hb) as Hab. pose proof (mul_valid b c Hb Hc) as Hbc.
  rewrite (mul_Return a b Ha Hb), (mul_Return b a Hb Ha), (mul_Return b c Hb Hc).
  simpl. rewrite (mul_Return _ c Hab Hc), (mul_Return a _ Ha Hbc). simpl.
  split; [| split].
  - f_equal. f_equal; ring.
  - f_equal. f_equal; ring.
  - eexists; reflexivity.
Qed.

Lemma mul_commutative_associative_witness :
  valid (mk 1 2) /\ valid (mk 1 (-3)) /\ valid (mk 5 6)
  /\ BigRational.mul (mk 1 2) (mk 1 (-3)) = BigRational.mul (mk 1 (-3)) (mk 1 2).
Proof.
  assert (Ha : valid (mk 1 2)) by discriminate.
  assert (Hb : valid (mk 1 (-3))) by discriminate.
  assert (Hc : valid (mk 5 6)) by discriminate.
  exact (conj Ha (conj Hb (conj Hc
           (proj1 (mul_commutative_associative _ _ _ Ha Hb Hc))))).
Defined.

(** X19. [mul] distributes over [add] up to [eq]: [a.mul(b.add(c))] and
    [a.mul(b).add(a.mul(c))] both return, and the results are [eq] (the
    stored pairs differ by the factor [a.denominator]). *)
Theorem mul_distributes_over_add (a b c : BigRational) :
  valid a -> valid b -> valid c ->
  exists l r,
    (let* s := BigRational.add b c in BigRational.mul a s) = Return l
    /\ (let* p := BigRational.mul a b in
        let* q := BigRational.mul a c in BigRational.add p q) = Return r
    /\ BigRational.eq l r = true.
Proof.
  intros Ha Hb Hc.
  pose proof (add_valid b c Hb Hc) as Hbc.
  pose proof (mul_valid a b Ha Hb) as Hab. pose proof (mul_valid a c Ha Hc) as Hac.
  rewrite (add_Return b c Hb Hc), (mul_Return a b Ha Hb), (mul_Return a c Ha Hc). simpl.
  rewrite (mul_Return a _ Ha Hbc), (add_Return _ _ Hab Hac).
  do 2 eexists. split; [reflexivity | split; [reflexivity |]].
  apply eq_cross.
  - apply (mul_valid a _ Ha Hbc).
  - apply (add_valid _ _ Hab Hac).
  - simpl. ring.
Qed.

Lemma mul_distributes_over_add_witness :
  valid (mk 1 2) /\ valid (mk 1 (-3)) /\ valid (mk 5 6)
  /\ exists l r,
       (let* s := BigRational.add (mk 1 (-3)) (mk 5 6) in BigRational.mul (mk 1 2) s) = Return l
       /\ (let* p := BigRational.mul (mk 1 2) (mk 1 (-3)) in
           let* q := BigRational.mul (mk 1 2) (mk 5 6) in BigRational.add p q) = Return r
       /\ BigRational.eq l r = true.
Proof.
  assert (Ha : valid (mk 1 2)) by discriminate.
  assert (Hb : valid (mk 1 (-3))) by discriminate.
  assert (Hc : valid (mk 5 6)) by discriminate.
  exact (conj Ha (conj Hb (conj Hc (mul_distributes_over_add _ _ _ Ha Hb Hc)))).
Defined.

(** X20. [a.subtract(b)] has numerator zero exactly when [a.eq(b)]; in
    particular [a.subtract(a)] is a zero, neither positive nor negative. *)
Theorem subtract_zero_iff_eq (a b : BigRational) :
  valid a -> valid b ->
  exists r,
    BigRational.subtract a b = Return r
    /\ (numerator r = 0 <-> BigRational.eq a b = true)
    /\ (BigRational.eq a b = true ->
        BigRational.isPositive r = false /\ BigRational.isNegative r = false).
Proof.
  intros Ha Hb. eexists. split; [apply subtract_Return; assumption |].
  pose proof (eq_iff_cross a b Ha Hb) as C.
  simpl. split.
  - rewrite C. lia.
  - intros E. apply C in E.
    assert (Z0 : - numerator b * denominator a + numerator a * denominator b = 0) by lia.
    unfold BigRational.isNegative, BigRational.isPositive. simpl. rewrite Z0.
    split; reflexivity.
Qed.

Lemma subtract_zero_iff_eq_witness :
  valid (mk 1 2) /\ valid (mk (-3) (-6))
  /\ exists r,
       BigRational.subtract (mk 1 2) (mk (-3) (-6)) = Return r
       /\ (numerator r = 0 <-> BigRational.eq (mk 1 2) (mk (-3) (-6)) = true)
       /\ (BigRational.eq (mk 1 2) (mk (-3) (-6)) = true ->
           BigRational.isPositive r = false /\ BigRational.isNegative r = false).
Proof.
  assert (Ha : valid (mk 1 2)) by discriminate.
  assert (Hb : valid (mk (-3) (-6))) by discriminate.
  exact (conj Ha (conj Hb (subtract_zero_iff_eq _ _ Ha Hb))).
Defined.

(** X21. [add] and [mul] respect [eq]: replacing the operands by [eq] ones
    gives [eq] results. *)
Theorem add_mul_respect_eq (a a' b b' : BigRational) :
  valid a -> valid a' -> valid b -> valid b' ->
  BigRational.eq a a' = true -> BigRational.eq b b' = true ->
  (exists s s', BigRational.add a b = Return s /\ BigRational.add a' b' = Return s'
                /\ BigRational.eq s s' = true)
  /\ (exists p p', BigRational.mul a b = Return p /\ BigRational.mul a' b' = Return p'
                   /\ BigRational.eq p p' = true).
Proof.
  intros Ha Ha' Hb Hb' Ea Eb.
  apply (eq_iff_cross a a' Ha Ha') in Ea. apply (eq_iff_cross b b' Hb Hb') in Eb.
  split; do 2 eexists.
  - split; [apply add_Return; assumption | split; [apply add_Return; assumption |]].
    apply eq_cross; [apply add_valid; assumption | apply add_valid; assumption |].
    simpl.
    transitivity ((numerator b * denominator b') * (denominator a * denominator a')
                  + (numerator a * denominator a') * (denominator b * denominator b'));
      [ring |].
    rewrite Ea, Eb. ring.
  - split; [apply mul_Return; assumption | split; [apply mul_Return; assumption |]].
    apply eq_cross; [apply mul_valid; assumption | apply mul_valid; assumption |].
    simpl.
    transitivity ((numerator b * denominator b') * (numerator a * denominator a'));
      [ring |].
    rewrite Ea, Eb. ring.
Qed.

Lemma add_mul_respect_eq_witness :
  valid (mk 1 2) /\ valid (mk (-2) (-4)) /\ valid (mk 1 3) /\ valid (mk 2 6)
  /\ exists s s', BigRational.add (mk 1 2) (mk 1 3) = Return s
                  /\ BigRational.add (mk (-2) (-4)) (mk 2 6) = Return s'
                  /\ BigRational.eq s s' = true.
Proof.
  assert (Ha : valid (mk 1 2)) by discriminate.
  assert (Ha' : valid (mk (-2) (-4))) by discriminate.
  assert (Hb : valid (mk 1 3)) by discriminate.
  assert (Hb' : valid (mk 2 6)) by discriminate.
  refine (conj Ha (conj Ha' (conj Hb (conj Hb' _)))).
  apply (add_mul_respect_eq _ _ _ _ Ha Ha' Hb Hb'); reflexivity.
Defined.

(** X22. Adding the same instance on both sides keeps the order:
    [a.lte(b)] is [a.add(c).lte(b.add(c))]. *)
Theorem add_monotone (a b c : BigRational) :
  valid a -> valid b -> valid c ->
  exists s t,
    BigRational.add a c = Return s /\ BigRational.add b c = Return t
    /\ BigRational.lte s t = BigRational.lte a b.
Proof.
  intros Ha Hb Hc. do 2 eexists.
  split; [apply add_Return; assumption | split; [apply add_Return; assumption |]].
  apply bool_eq_iff.
  rewrite (lte_iff_Qle _ _ (add_valid a c Ha Hc) (add_valid b c Hb Hc)),
    (lte_iff_Qle a b Ha Hb).
  assert (Sa : (toQ (mk (numerator c * denominator a + numerator a * denominator c)
                        (denominator a * denominator c)) == toQ a + toQ c)%Q).
  { Q_of_fields. nonzero_fields. field. split; assumption. }
  assert (Sb : (toQ (mk (numerator c * denominator b + numerator b * denominator c)
                        (denominator b * denominator c)) == toQ b + toQ c)%Q).
  { Q_of_fields. nonzero_fields. field. split; assumption. }
  rewrite Sa, Sb. split.
  - intros L. apply (Qplus_le_l _ _ (toQ c)). exact L.
  - intros L. apply (Qplus_le_l _ _ (toQ c)). exact L.
Qed.

Lemma add_monotone_witness :
  valid (mk 1 (-2)) /\ valid (mk 1 3) /\ valid (mk 7 (-5))
  /\ exists s t,
       BigRational.add (mk 1 (-2)) (mk 7 (-5)) = Return s
       /\ BigRational.add (mk 1 3) (mk 7 (-5)) = Return t
       /\ BigRational.lte s t = BigRational.lte (mk 1 (-2)) (mk 1 3).
Proof.
  assert (Ha : valid (mk 1 (-2))) by discriminate.
  assert (Hb : valid (mk 1 3)) by discriminate.
  assert (Hc : valid (mk 7 (-5))) by discriminate.
  exact (conj Ha (conj Hb (conj Hc (add_monotone _ _ _ Ha Hb Hc)))).
Defined.

(** ** Reduction to lowest terms *)

Lemma coprime_cross (n d N D : Z) :
  Z.gcd n d = 1 -> n * D = N * d -> (d | D) /\ (n | N).
Proof.
  intros G E. split.
  - apply (Z.gauss d n D).
    + exists N. exact E.
    + rewrite Z.gcd_comm. exact G.
  - apply (Z.gauss n d N).
    + exists D. rewrite (Z.mul_comm d N), <- E. ring.
    + exact G.
Qed.

(** X23. [reduce()] returns the fraction in lowest terms: its numerator and
    denominator are coprime, and they divide the numerator and the
    denominator of every valid instance that is [eq] to the original, whose
    denominator is therefore at least as large in magnitude. *)
Theorem reduce_lowest_terms (a b : BigRational) :
  valid a -> valid b -> BigRational.eq a b = true ->
  exists r,
    BigRational.reduce a = Return r
    /\ Z.gcd (numerator r) (denominator r) = 1
    /\ (numerator r | numerator b)
    /\ (denominator r | denominator b)
    /\ Z.abs (denominator r) <= Z.abs (denominator b).
Proof.
  intros Ha Hb E.
  destruct (reduce_Return a Ha) as [n' [d' [R [Hg [Hn [Hd [Hd' H1]]]]]]].
  exists (mk n' d'). split; [exact R |]. simpl. split; [exact H1 |].
  apply (eq_iff_cross a b Ha Hb) in E.
  remember (Z.gcd (numerator a) (denominator a)) as g eqn:Eg.
  assert (C : n' * denominator b = numerator b * d').
  { apply (Z.mul_reg_r _ _ g); [lia |]. rewrite Hn, Hd in E. lia. }
  destruct (coprime_cross n' d' _ _ H1 C) as [Dd Dn].
  split; [exact Dn | split; [exact Dd |]].
  apply Z.divide_abs_l, Z.divide_abs_r in Dd.
  apply Z.divide_pos_le in Dd; [exact Dd |]. unfold valid in Hb. lia.
Qed.

Lemma reduce_lowest_terms_witness :
  valid (mk 10 (-20)) /\ valid (mk (-3) 6)
  /\ BigRational.eq (mk 10 (-20)) (mk (-3) 6) = true
  /\ exists r,
       BigRational.reduce (mk 10 (-20)) = Return r
       /\ Z.gcd (numerator r) (denominator r) = 1
       /\ (numerator r | numerator (mk (-3) 6))
       /\ (denominator r | denominator (mk (-3) 6))
       /\ Z.abs (denominator r) <= Z.abs (denominator (mk (-3) 6)).
Proof.
  assert (Ha : valid (mk 10 (-20))) by discriminate.
  assert (Hb : valid (mk (-3) 6)) by discriminate.
  assert (E : BigRational.eq (mk 10 (-20)) (mk (-3) 6) = true) by reflexivity.
  exact (conj Ha (conj Hb (conj E (reduce_lowest_terms _ _ Ha Hb E)))).
Defined.

(** X24. [reduce()] is canonical up to the sign of the denominator: two valid
    instances that are [eq] and whose denominators have the same sign
    reduce to the very same numerator and denominator. *)
Theorem reduce_canonical (a b : BigRational) :
  valid a -> valid b ->
  BigRational.eq a b = true -> Z.sgn (denominator a) = Z.sgn (denominator b) ->
  exists r, BigRational.reduce a = Return r /\ BigRational.reduce b = Return r.
Proof.
  intros Ha Hb E S.
  destruct (reduce_Return a Ha) as [na [da [Ra [Hga [Hna [Hda [Hda' Ga]]]]]]].
  destruct (reduce_Return b Hb) as [nb [db [Rb [Hgb [Hnb [Hdb [Hdb' Gb]]]]]]].
  apply (eq_iff_cross a b Ha Hb) in E.
  remember (Z.gcd (numerator a) (denominator a)) as ga eqn:Ega.
  remember (Z.gcd (numerator b) (denominator b)) as gb eqn:Egb.
  assert (C : na * db = nb * da).
  { apply (Z.mul_reg_r _ _ (ga * gb)); [nia |]. rewrite Hna, Hda, Hnb, Hdb in E. lia. }
  destruct (coprime_cross na da _ _ Ga C) as [Dab _].
  destruct (coprime_cross nb db _ _ Gb (Logic.eq_sym C)) as [Dba _].
  pose proof (Z.divide_antisym_abs _ _ Dab Dba) as A.
  assert (Sa : Z.sgn da = Z.sgn db).
  { rewrite Hda, Hdb, !Z.sgn_mul, (Z.sgn_pos _ Hga), (Z.sgn_pos _ Hgb) in S. lia. }
  assert (Ed : da = db) by lia.
  assert (En : na = nb).
  { apply (Z.mul_reg_r _ _ db); [exact Hdb' |]. rewrite C, Ed. reflexivity. }
  exists (mk na da). split; [exact Ra |]. rewrite Rb, En, Ed. reflexivity.
Qed.

Lemma reduce_canonical_witness :
  valid (mk 10 (-20)) /\ valid (mk 3 (-6))
  /\ BigRational.eq (mk 10 (-20)) (mk 3 (-6)) = true
  /\ Z.sgn (denominator (mk 10 (-20))) = Z.sgn (denominator (mk 3 (-6)))
  /\ exists r, BigRational.reduce (mk 10 (-20)) = Return r
               /\ BigRational.reduce (mk 3 (-6)) = Return r.
Proof.
  assert (Ha : valid (mk 10 (-20))) by discriminate.
  assert (Hb : valid (mk 3 (-6))) by discriminate.
  assert (E : BigRational.eq (mk 10 (-20)) (mk 3 (-6)) = true) by reflexivity.
  assert (S : Z.sgn (denominator (mk 10 (-20))) = Z.sgn (denominator (mk 3 (-6))))
    by reflexivity.
  exact (conj Ha (conj Hb (conj E (conj S (reduce_canonical _ _ Ha Hb E S))))).
Defined.

(** ** The string form *)

Lemma string_of_uint_space_free (d : Decimal.uint) :
  space_free (NilEmpty.string_of_uint d) = true.
Proof. induction d; simpl; auto. Qed.

Lemma bigint_toString_space_free (z : Z) : space_free (bigint_toString z) = true.
Proof.
  unfold bigint_toString.
  destruct (Z.to_int z) as [d | d]; simpl; destruct d; simpl;
    try reflexivity; apply string_of_uint_space_free.
Qed.

Lemma bigint_toString_inj (x y : Z) : bigint_toString x = bigint_toString y -> x = y.
Proof.
  unfold bigint_toString. intros E.
  apply (f_equal NilZero.int_of_string) in E.
  destruct (to_int_not_nil x) as [Xp Xn]. destruct (to_int_not_nil y) as [Yp Yn].
  rewrite (NilZero.isi _ Xp Xn), (NilZero.isi _ Yp Yn) in E.
  injection E as E. apply DecimalZ.to_int_inj. exact E.
Qed.

(** Two strings that agree up to their first space agree before it and
    after it. *)
Lemma append_space_inj (s1 s2 t1 t2 : string) :
  space_free s1 = true -> space_free s2 = true ->
  (s1 ++ String " " t1 = s2 ++ String " " t2)%string -> s1 = s2 /\ t1 = t2.
Proof.
  revert s2. induction s1 as [| c s1 IH]; intros [| c2 s2]; simpl; intros F1 F2 E.
  - injection E as E. split; [reflexivity | exact E].
  - injection E as Ec _. subst c2. discriminate F2.
  - injection E as Ec _. subst c. discriminate F1.
  - injection E as Ec E. subst c2.
    apply andb_true_iff in F1 as [_ F1]. apply andb_true_iff in F2 as [_ F2].
    destruct (IH s2 F1 F2 E) as [-> ->]. split; reflexivity.
Qed.

(** X25. [toString()] renders the stored pair itself: two instances have the
    same string exactly when they have the same numerator and the same
    denominator, so [eq] instances with different pairs print differently. *)
Theorem toString_injective (a b : BigRational) :
  BigRational.toString a = BigRational.toString b <-> a = b.
Proof.
  split; [| intros ->; reflexivity].
  unfold BigRational.toString. intros E.
  change (" / " ++ ?x)%string with (String " " (String "/" (String " " x))) in E.
  apply append_space_inj in E; try apply bigint_toString_space_free.
  destruct E as [En Ed]. injection Ed as Ed.
  apply bigint_toString_inj in En. apply bigint_toString_inj in Ed.
  destruct a, b; simpl in *; subst; reflexivity.
Qed.

(** ** Order and arithmetic together *)

Lemma toQ_mul_mk (a b : BigRational) :
  valid a -> valid b ->
  (toQ (mk (numerator b * numerator a) (denominator b * denominator a))
   == toQ a * toQ b)%Q.
Proof. intros Ha Hb. Q_of_fields. nonzero_fields. field. split; assumption. Qed.

Lemma toQ_negate_mk (r : BigRational) :
  valid r -> (toQ (mk (- numerator r) (denominator r)) == - toQ r)%Q.
Proof. intros Hr. Q_of_fields. nonzero_fields. field. assumption. Qed.

Lemma Qmult_le_neg_r (x y z : Q) : (z < 0 -> (x * z <= y * z <-> y <= x))%Q.
Proof.
  intros Hz.
  assert (P : (0 < - z)%Q) by lra.
  rewrite <- (Qmult_le_r y x (- z) P). split; intros H; nra.
Qed.

(** X26. [lt] is a strict order on valid instances: irreflexive, asymmetric and
    transitive. *)
Theorem lt_strict_order (a b c : BigRational) :
  valid a -> valid b -> valid c ->
  BigRational.lt a a = false
  /\ (BigRational.lt a b = true -> BigRational.lt b a = false)
  /\ (BigRational.lt a b = true -> BigRational.lt b c = true -> BigRational.lt a c = true).
Proof.
  intros Ha Hb Hc. split; [| split].
  - unfold BigRational.lt. destruct (BigRational.lte a a); reflexivity.
  - unfold BigRational.lt. intros H. apply andb_true_iff in H as [L _]. rewrite L.
    apply andb_false_r.
  - rewrite (lt_iff_Qlt a b Ha Hb), (lt_iff_Qlt b c Hb Hc), (lt_iff_Qlt a c Ha Hc).
    apply Qlt_trans.
Qed.

Lemma lt_strict_order_witness :
  valid (mk 1 (-2)) /\ valid (mk 1 3) /\ valid (mk (-5) (-2))
  /\ BigRational.lt (mk 1 (-2)) (mk (-5) (-2)) = true.
Proof.
  assert (Ha : valid (mk 1 (-2))) by discriminate.
  assert (Hb : valid (mk 1 3)) by discriminate.
  assert (Hc : valid (mk (-5) (-2))) by discriminate.
  refine (conj Ha (conj Hb (conj Hc _))).
  apply (proj2 (proj2 (lt_strict_order _ _ _ Ha Hb Hc))); reflexivity.
Defined.

(** X27. [negate()] reverses the order: [a.negate().lte(b.negate())] is
    [b.lte(a)]. *)
Theorem negate_reverses_order (a b : BigRational) :
  valid a -> valid b ->
  exists na nb,
    BigRational.negate a = Return na /\ BigRational.negate b = Return nb
    /\ BigRational.lte na nb = BigRational.lte b a.
Proof.
  intros Ha Hb. do 2 eexists.
  split; [apply negate_Return; assumption | split; [apply negate_Return; assumption |]].
  apply bool_eq_iff.
  assert (Ha' : valid (mk (- numerator a) (denominator a))) by exact Ha.
  assert (Hb' : valid (mk (- numerator b) (denominator b))) by exact Hb.
  rewrite (lte_iff_Qle _ _ Ha' Hb'), (lte_iff_Qle b a Hb Ha),
    (toQ_negate_mk a Ha), (toQ_negate_mk b Hb).
  split; intros H; lra.
Qed.

Lemma negate_reverses_order_witness :
  valid (mk 1 (-2)) /\ valid (mk 1 3)
  /\ exists na nb,
       BigRational.negate (mk 1 (-2)) = Return na /\ BigRational.negate (mk 1 3) = Return nb
       /\ BigRational.lte na nb = BigRational.lte (mk 1 3) (mk 1 (-2)).
Proof.
  assert (Ha : valid (mk 1 (-2))) by discriminate.
  assert (Hb : valid (mk 1 3)) by discriminate.
  exact (conj Ha (conj Hb (negate_reverses_order _ _ Ha Hb))).
Defined.

(** X28. Multiplying both sides by a positive instance keeps the order and
    multiplying by a negative one reverses it: [a.mul(c).lte(b.mul(c))] is
    [a.lte(b)] when [c.isPositive()] and [b.lte(a)] when [c.isNegative()]. *)
Theorem mul_monotone (a b c : BigRational) :
  valid a -> valid b -> valid c ->
  exists p q,
    BigRational.mul a c = Return p /\ BigRational.mul b c = Return q
    /\ (BigRational.isPositive c = true -> BigRational.lte p q = BigRational.lte a b)
    /\ (BigRational.isNegative c = true -> BigRational.lte p q = BigRational.lte b a).
Proof.
  intros Ha Hb Hc. do 2 eexists.
  split; [apply mul_Return; assumption | split; [apply mul_Return; assumption |]].
  destruct (sign_tests_Q c Hc) as [P N].
  split; intros S; apply bool_eq_iff;
    rewrite (lte_iff_Qle _ _ (mul_valid a c Ha Hc) (mul_valid b c Hb Hc)),
      (toQ_mul_mk a c Ha Hc), (toQ_mul_mk b c Hb Hc).
  - rewrite (lte_iff_Qle a b Ha Hb). apply Qmult_le_r. apply P. exact S.
  - rewrite (lte_iff_Qle b a Hb Ha). apply Qmult_le_neg_r. apply N. exact S.
Qed.

Lemma mul_monotone_witness :
  valid (mk 1 (-2)) /\ valid (mk 1 3) /\ valid (mk 7 (-5))
  /\ exists p q,
       BigRational.mul (mk 1 (-2)) (mk 7 (-5)) = Return p
       /\ BigRational.mul (mk 1 3) (mk 7 (-5)) = Return q
       /\ BigRational.lte p q = BigRational.lte (mk 1 3) (mk 1 (-2)).
Proof.
  assert (Ha : valid (mk 1 (-2))) by discriminate.
  assert (Hb : valid (mk 1 3)) by discriminate.
  assert (Hc : valid (mk 7 (-5))) by discriminate.
  refine (conj Ha (conj Hb (conj Hc _))).
  destruct (mul_monotone _ _ _ Ha Hb Hc) as [p [q [Ep [Eq [_ N]]]]].
  exists p, q. split; [exact Ep | split; [exact Eq |]].
  apply N. reflexivity.
Defined.

(** X29. Zeros and ones are neutral up to [eq]: adding a valid instance with
    numerator zero, or multiplying by a valid instance whose numerator
    equals its denominator, returns an instance [eq] to the original. *)
Theorem add_zero_mul_one_neutral (a z o : BigRational) :
  valid a -> valid z -> valid o ->
  numerator z = 0 -> numerator o = denominator o ->
  (exists s, BigRational.add a z = Return s /\ BigRational.eq s a = true)
  /\ (exists p, BigRational.mul a o = Return p /\ BigRational.eq p a = true).
Proof.
  intros Ha Hz Ho Nz No. split; eexists.
  - split; [apply add_Return; assumption |].
    apply eq_cross; [apply add_valid; assumption | exact Ha |].
    simpl. rewrite Nz. ring.
  - split; [apply mul_Return; assumption |].
    apply eq_cross; [apply mul_valid; assumption | exact Ha |].
    simpl. rewrite No. ring.
Qed.

Lemma add_zero_mul_one_neutral_witness :
  valid (mk 5 (-2)) /\ valid (mk 0 7) /\ valid (mk (-3) (-3))
  /\ numerator (mk 0 7) = 0 /\ numerator (mk (-3) (-3)) = denominator (mk (-3) (-3))
  /\ (exists s, BigRational.add (mk 5 (-2)) (mk 0 7) = Return s
                /\ BigRational.eq s (mk 5 (-2)) = true)
  /\ (exists p, BigRational.mul (mk 5 (-2)) (mk (-3) (-3)) = Return p
                /\ BigRational.eq p (mk 5 (-2)) = true).
Proof.
  assert (Ha : valid (mk 5 (-2))) by discriminate.
  assert (Hz : valid (mk 0 7)) by discriminate.
  assert (Ho : valid (mk (-3) (-3))) by discriminate.
  assert (Nz : numerator (mk 0 7) = 0) by reflexivity.
  assert (No : numerator (mk (-3) (-3)) = denominator (mk (-3) (-3))) by reflexivity.
  exact (conj Ha (conj Hz (conj Ho (conj Nz (conj No
           (add_zero_mul_one_neutral _ _ _ Ha Hz Ho Nz No)))))).
Defined.
